(** * conf.py of programming-advice: the Sphinx configuration and its
      [setup] callback

    The repository is one Python file, [source/conf.py].  Sphinx executes
    the module body, reads the module-level names as configuration values
    and then calls [setup(app)], which registers a light/dark theme switcher
    through the external [sphinx_utils] package.

    The development has three parts:
    - [Py]: Python values, exceptions, [str.format] on the fragment the file
      uses, and a state-and-exception monad in which both the module body and
      [setup] run.  Calls into [sphinx_utils] are events answered by an
      arbitrary handler, and are logged;
    - [Conf]: the module body and [setup], line by line;
    - [JS]: a reader and evaluator for the JavaScript conditional expressions
      [setup] hands to the theme switcher. *)

From Stdlib Require Import String Ascii List Bool Lia.
From stdpp Require Import base option list gmap strings.
Import ListNotations.

Set Warnings "-register-all".
Local Open Scope string_scope.
Local Open Scope list_scope.

(** The double quote character, and a string made of it alone.  The Python
    source writes the JavaScript snippets in single-quoted literals holding
    double quotes. *)
Definition dquote : ascii := "034"%char.
Definition dq : string := String dquote EmptyString.

Module Py.

(** ** Values *)

(** Python objects, as far as the file touches them.  [VObj] is an object
    owned by Sphinx or [sphinx_utils] (the application handle, the augment),
    known by its identity only. *)
Inductive value : Type :=
| VNone
| VBool (b : bool)
| VStr (s : string)
| VList (xs : list value)
| VTuple (xs : list value)
| VDict (kvs : list (value * value))
| VModule (name : string)
| VMember (modname attr : string)
| VFunction (name : string)
| VObj (oid : nat).

(** An exception: its class and, in short, its message. *)
Record exn : Type := Exn { exn_class : string; exn_msg : string }.

(** What running a piece of Python gives: a value, an exception, or
    [Unmodelled] when the code leaves the fragment of Python described here
    (integer arithmetic, format specifications, ...). *)
Inductive outcome (A : Type) : Type :=
| Returned (a : A)
| Raised (e : exn)
| Unmodelled.
Arguments Returned {A} a.
Arguments Raised {A} e.
Arguments Unmodelled {A}.

(** ** [str.format] *)

(** [str(v)], as [format] applies it to an argument of an empty field. *)
Definition py_str (v : value) : option string :=
  match v with
  | VStr s => Some s
  | VNone => Some "None"
  | VBool true => Some "True"
  | VBool false => Some "False"
  | _ => None
  end.

Definition prepend (s : string) (r : outcome string) : outcome string :=
  match r with
  | Returned t => Returned (s +:+ t)
  | Raised e => Raised e
  | Unmodelled => Unmodelled
  end.

(** [tpl.format(a1, ..., an)] for templates whose replacement fields are all the
    automatic [{}]: [{{] and [}}] are escapes, an empty field takes the next
    positional argument, surplus arguments are ignored. *)
Fixpoint py_format (tpl : string) (args : list value) : outcome string :=
  match tpl with
  | EmptyString => Returned EmptyString
  | String c rest =>
      if Ascii.eqb c "{" then
        match rest with
        | EmptyString =>
            Raised (Exn "ValueError" "Single '{' encountered in format string")
        | String c' rest' =>
            if Ascii.eqb c' "{" then prepend "{" (py_format rest' args)
            else if Ascii.eqb c' "}" then
              match args with
              | [] =>
                  Raised (Exn "IndexError"
                    "Replacement index out of range for positional args tuple")
              | a :: args' =>
                  match py_str a with
                  | Some s => prepend s (py_format rest' args')
                  | None => Unmodelled
                  end
              end
            else Unmodelled
        end
      else if Ascii.eqb c "}" then
        match rest with
        | String c' rest' =>
            if Ascii.eqb c' "}" then prepend "}" (py_format rest' args)
            else
              Raised (Exn "ValueError" "Single '}' encountered in format string")
        | EmptyString =>
            Raised (Exn "ValueError" "Single '}' encountered in format string")
        end
      else prepend (String c EmptyString) (py_format rest args)
  end.

(** ** Calls into the external package *)

(** One call: the attribute [c_meth] of [c_recv] is looked up and called with
    positional and keyword arguments. *)
Record call : Type := Call {
  c_recv : value;
  c_meth : string;
  c_args : list value;
  c_kwargs : list (string * value)
}.

Inductive ext_result : Type :=
| ExtReturn (v : value)
| ExtRaise (e : exn).

Section Monad.

(** The state of everything outside the file, and the behaviour of the
    external package on it. *)
Context {World : Type}.
Variable ext_call : call -> World -> ext_result * World.

(** The interpreter state: the module's global namespace, the names bound so
    far in binding order, the outside world and the log of external calls. *)
Record state : Type := State {
  st_globals : gmap string value;
  st_writes : list string;
  st_world : World;
  st_calls : list call
}.

Definition M (A : Type) : Type := state -> outcome A * state.

Definition ret {A} (a : A) : M A := fun st => (Returned a, st).

Definition bind {A B} (m : M A) (k : A -> M B) : M B :=
  fun st =>
    match m st with
    | (Returned a, st') => k a st'
    | (Raised e, st') => (Raised e, st')
    | (Unmodelled, st') => (Unmodelled, st')
    end.

Definition unmodelled {A} : M A := fun st => (Unmodelled, st).

(** Reading a global name. *)
Definition lookup_name (x : string) : M value :=
  fun st =>
    match st_globals st !! x with
    | Some v => (Returned v, st)
    | None => (Raised (Exn "NameError" x), st)
    end.

(** Binding a global name. *)
Definition assign (x : string) (v : value) : M unit :=
  fun st =>
    (Returned tt,
     {| st_globals := <[x := v]> (st_globals st);
        st_writes := st_writes st ++ [x];
        st_world := st_world st;
        st_calls := st_calls st |}).

(** [recv.meth(args, k1=v1, ...)] on an external object: the attribute lookup
    and the call are one event, answered by [ext_call] and logged whether it
    returns or raises.  The external package sees and changes the outside
    world only: it is handed neither the module's namespace nor the record of
    bindings, and it is taken to come back. *)
Definition call_method (recv : value) (meth : string)
    (args : list value) (kwargs : list (string * value)) : M value :=
  fun st =>
    let c := Call recv meth args kwargs in
    let '(r, w') := ext_call c (st_world st) in
    let st' := {| st_globals := st_globals st;
                  st_writes := st_writes st;
                  st_world := w';
                  st_calls := st_calls st ++ [c] |} in
    match r with
    | ExtReturn v => (Returned v, st')
    | ExtRaise e => (Raised e, st')
    end.

(** A pure computation that may raise. *)
Definition lift {A} (r : outcome A) : M A := fun st => (r, st).

End Monad.

Arguments state World : clear implicits.
Arguments M World A : clear implicits.

Declare Scope py_scope.
Delimit Scope py_scope with py.
Notation "x <- c ;; k" := (bind c (fun x => k))
  (at level 100, c at next level, right associativity) : py_scope.
Notation "c ;;; k" := (bind c (fun _ => k))
  (at level 100, right associativity) : py_scope.

(** ** Expressions of the module body *)

Inductive expr : Type :=
| EStr (s : string)
| EBool (b : bool)
| ENone
| EName (x : string)
| EAttr (e : expr) (attr : string)
| EAdd (e1 e2 : expr)
| EList (es : list expr)
| ETuple (es : list expr)
| EDict (kvs : list (expr * expr)).

(** [x + y] on strings, lists and tuples. *)
Definition py_add (x y : value) : outcome value :=
  match x, y with
  | VStr a, VStr b => Returned (VStr (a +:+ b))
  | VList a, VList b => Returned (VList (a ++ b))
  | VTuple a, VTuple b => Returned (VTuple (a ++ b))
  | VStr _, (VNone | VBool _ | VList _ | VTuple _ | VDict _) =>
      Raised (Exn "TypeError" "can only concatenate str to str")
  | _, _ => Unmodelled
  end.

Section Eval.

Context {World : Type}.

(** The one attribute of [sphinx_utils] the module body reads; its value
    belongs to that package. *)
Variable HTML_THEMES_DIR : value.

Definition getattr (v : value) (attr : string) : M World value :=
  match v with
  | VModule m =>
      if (String.eqb m "sphinx_utils" && String.eqb attr "HTML_THEMES_DIR")%bool
      then ret HTML_THEMES_DIR
      else unmodelled
  | _ => unmodelled
  end.

Fixpoint eval (e : expr) : M World value :=
  (match e with
   | EStr s => ret (VStr s)
   | EBool b => ret (VBool b)
   | ENone => ret VNone
   | EName x => lookup_name x
   | EAttr e' attr => v <- eval e' ;; getattr v attr
   | EAdd e1 e2 => x <- eval e1 ;; y <- eval e2 ;; lift (py_add x y)
   | EList es =>
       vs <- (fix items (es : list expr) : M World (list value) :=
                match es with
                | [] => ret []
                | e' :: es' => v <- eval e' ;; vs <- items es' ;; ret (v :: vs)
                end) es ;;
       ret (VList vs)
   | ETuple es =>
       vs <- (fix items (es : list expr) : M World (list value) :=
                match es with
                | [] => ret []
                | e' :: es' => v <- eval e' ;; vs <- items es' ;; ret (v :: vs)
                end) es ;;
       ret (VTuple vs)
   | EDict kvs =>
       ps <- (fix pairs (kvs : list (expr * expr))
                : M World (list (value * value)) :=
                match kvs with
                | [] => ret []
                | (k, e') :: kvs' =>
                    kv <- eval k ;; v <- eval e' ;; ps <- pairs kvs' ;;
                    ret ((kv, v) :: ps)
                end) kvs ;;
       ret (VDict ps)
   end)%py.

(** Expressions written as literals: displays of literals, nothing named
    and nothing computed. *)
Fixpoint is_literal (e : expr) : bool :=
  match e with
  | EStr _ | EBool _ | ENone => true
  | EName _ | EAttr _ _ | EAdd _ _ => false
  | EList es | ETuple es => forallb is_literal es
  | EDict kvs => forallb (fun kv => is_literal (fst kv) && is_literal (snd kv)) kvs
  end.

(** ** Statements of the module body *)

(** An import binds its name and is taken to succeed; [def] binds the name of
    the function. *)

Inductive stmt : Type :=
| SImport (m : string)
| SFromImport (m name : string)
| SAssign (x : string) (e : expr)
| SDef (name : string).

Definition exec_stmt (s : stmt) : M World unit :=
  (match s with
   | SImport m => assign m (VModule m)
   | SFromImport m name => assign name (VMember m name)
   | SAssign x e => v <- eval e ;; assign x v
   | SDef name => assign name (VFunction name)
   end)%py.

Fixpoint exec (ss : list stmt) : M World unit :=
  (match ss with
   | [] => ret tt
   | s :: ss' => exec_stmt s ;;; exec ss'
   end)%py.

End Eval.

End Py.

Module Conf.
Import Py.

(** ** The module body *)

(** Lines 42-105: the configuration values, in source order. *)
Definition conf_assignments : list (string * expr) :=
  [ ("needs_sphinx", EStr "3.0.0");
    ("extensions", EList [EStr "sphinx.ext.intersphinx"]);
    ("intersphinx_mapping",
       EDict [(EStr "python", ETuple [EStr "https://docs.python.org/3"; ENone])]);
    ("templates_path", EList [EStr "_templates"]);
    ("source_suffix", EStr ".rst");
    ("master_doc", EStr "index");
    ("project", EStr "programming-advice");
    ("author", EStr "Aran-Fey");
    ("copyright", EAdd (EStr "2020, ") (EName "author"));
    ("version", EStr "0.1");
    ("release", EName "version");
    ("language", EStr "en");
    ("exclude_patterns", EList []);
    ("todo_include_todos", EBool false);
    ("smartquotes", EBool false);
    ("html_theme", EStr "advice");
    ("html_theme_path", EList [EAttr (EName "sphinx_utils") "HTML_THEMES_DIR"]);
    ("html_show_copyright", EBool false);
    ("html_show_sphinx", EBool false);
    ("html_title", EStr "Aran-Fey's (python) programming guides");
    ("html_favicon", EStr "favicon.png") ].

(** The whole file: imports, the two palette constants, [def setup], then
    the configuration values. *)
Definition conf_py : list stmt :=
  [ SImport "sphinx_utils";
    SImport "sys";
    SFromImport "pathlib" "Path";
    SAssign "DEFAULT_LIGHT_SYNTAX_THEME" (EStr "friendly");
    SAssign "DEFAULT_DARK_SYNTAX_THEME" (EStr "monokai");
    SDef "setup" ]
  ++ map (fun xe => SAssign (fst xe) (snd xe)) conf_assignments.

(** ** [setup] *)

(** The two JavaScript templates, as the source writes them. *)
Definition default_theme_template : string :=
  "window.matchMedia(" +:+ dq +:+ "(prefers-color-scheme: dark)" +:+ dq
  +:+ ").matches ? " +:+ dq +:+ "{}" +:+ dq +:+ " : " +:+ dq +:+ "{}" +:+ dq.

Definition default_syntax_theme_template : string :=
  "siteThemeId === " +:+ dq +:+ "dark" +:+ dq
  +:+ " ? " +:+ dq +:+ "{}" +:+ dq +:+ " : " +:+ dq +:+ "{}" +:+ dq.

(** The icons are the code points U+263C and U+263D; a string here holds
    their UTF-8 bytes. *)
Definition icon_light : string := "☼".
Definition icon_dark : string := "☽".

Section Setup.

Context {World : Type}.
Variable ext_call : call -> World -> ext_result * World.

(** [def setup(app)].  Global names are read when the call runs, each
    occurrence on its own; arguments are evaluated left to right, positional
    before keyword, before the call is made. *)
Definition setup (app : value) : M World value :=
  (sphinx_utils <- lookup_name "sphinx_utils" ;;
   augment <- call_method ext_call sphinx_utils "augment"
                [app; VStr "programming-guides"] [] ;;
   light0 <- lookup_name "DEFAULT_LIGHT_SYNTAX_THEME" ;;
   dark0 <- lookup_name "DEFAULT_DARK_SYNTAX_THEME" ;;
   dark1 <- lookup_name "DEFAULT_DARK_SYNTAX_THEME" ;;
   light1 <- lookup_name "DEFAULT_LIGHT_SYNTAX_THEME" ;;
   default_theme <- lift (py_format default_theme_template [dark1; light1]) ;;
   dark2 <- lookup_name "DEFAULT_DARK_SYNTAX_THEME" ;;
   light2 <- lookup_name "DEFAULT_LIGHT_SYNTAX_THEME" ;;
   default_syntax_theme <-
     lift (py_format default_syntax_theme_template [dark2; light2]) ;;
   call_method ext_call augment "theme_switcher"
     [ VList
         [ VDict [(VStr "id", VStr "light"); (VStr "icon", VStr icon_light)];
           VDict [(VStr "id", VStr "dark"); (VStr "icon", VStr icon_dark)] ] ]
     [ ("syntax_themes",
          VList [ light0; dark0;
                  VStr "sphinx_utils.pygments_styles.cobalt2.Cobalt2Style" ]);
       ("default_theme", VStr default_theme);
       ("default_syntax_theme", VStr default_syntax_theme) ] ;;;
   ret VNone)%py.

End Setup.

End Conf.

(** * The JavaScript handed to the theme switcher *)

Module JS.

(** ** Reading an expression *)

Inductive token : Type :=
| TIdent (x : string)
| TString (s : string)
| TDot
| TLParen
| TRParen
| TComma
| TQuestion
| TColon
| TStrictEq.

Definition in_range (lo hi : nat) (c : ascii) : bool :=
  (Nat.leb lo (nat_of_ascii c) && Nat.leb (nat_of_ascii c) hi)%bool.

Definition is_ident_start (c : ascii) : bool :=
  (in_range 97 122 c || in_range 65 90 c
   || Ascii.eqb c "_" || Ascii.eqb c "$")%bool.

Definition is_ident_char (c : ascii) : bool :=
  (is_ident_start c || in_range 48 57 c)%bool.

Definition snoc (s : string) (c : ascii) : string := s +:+ String c EmptyString.

(** What the reader is in the middle of. *)
Inductive lex_mode : Type :=
| LStart
| LIdent (acc : string)
| LStr (acc : string)
| LEq (n : nat).

(** The tokens owed when the current run of characters ends. *)
Definition flush (m : lex_mode) : option (list token) :=
  match m with
  | LStart => Some []
  | LIdent acc => Some [TIdent acc]
  | LStr _ => None
  | LEq 3 => Some [TStrictEq]
  | LEq _ => None
  end.

(** A character seen with nothing pending. *)
Definition start (c : ascii) : option (lex_mode * list token) :=
  if Ascii.eqb c " " then Some (LStart, [])
  else if is_ident_start c then Some (LIdent (String c EmptyString), [])
  else if Ascii.eqb c dquote then Some (LStr EmptyString, [])
  else if Ascii.eqb c "=" then Some (LEq 1, [])
  else if Ascii.eqb c "." then Some (LStart, [TDot])
  else if Ascii.eqb c "(" then Some (LStart, [TLParen])
  else if Ascii.eqb c ")" then Some (LStart, [TRParen])
  else if Ascii.eqb c "," then Some (LStart, [TComma])
  else if Ascii.eqb c "?" then Some (LStart, [TQuestion])
  else if Ascii.eqb c ":" then Some (LStart, [TColon])
  else None.

Fixpoint lex (m : lex_mode) (s : string) : option (list token) :=
  match s with
  | EmptyString => flush m
  | String c rest =>
      match m with
      | LStr acc =>
          if Ascii.eqb c dquote then
            match lex LStart rest with
            | Some ts => Some (TString acc :: ts)
            | None => None
            end
          else if Ascii.eqb c "\" then None
          else lex (LStr (snoc acc c)) rest
      | LIdent acc =>
          if is_ident_char c then lex (LIdent (snoc acc c)) rest
          else
            match start c with
            | Some (m', ts) =>
                match lex m' rest with
                | Some ts' => Some (TIdent acc :: ts ++ ts')
                | None => None
                end
            | None => None
            end
      | LEq n =>
          if Ascii.eqb c "=" then lex (LEq (S n)) rest
          else
            match flush m, start c with
            | Some pre, Some (m', ts) =>
                match lex m' rest with
                | Some ts' => Some (pre ++ ts ++ ts')
                | None => None
                end
            | _, _ => None
            end
      | LStart =>
          match start c with
          | Some (m', ts) =>
              match lex m' rest with
              | Some ts' => Some (ts ++ ts')
              | None => None
              end
          | None => None
          end
      end
  end.

(** Conditional expressions over strict equality, member access and calls. *)
Inductive jsexpr : Type :=
| JVar (x : string)
| JStr (s : string)
| JMember (e : jsexpr) (prop : string)
| JCall (f : jsexpr) (args : list jsexpr)
| JStrictEq (a b : jsexpr)
| JCond (c a b : jsexpr).

Definition parser (A : Type) : Type := list token -> option (A * list token).

(** Recursive descent; the fuel bounds the depth of the descent. *)
Fixpoint parse_cond (fuel : nat) : parser jsexpr :=
  fun ts =>
    match fuel with
    | O => None
    | S n =>
        match parse_eq n ts with
        | Some (c, TQuestion :: r1) =>
            match parse_cond n r1 with
            | Some (a, TColon :: r2) =>
                match parse_cond n r2 with
                | Some (b, r3) => Some (JCond c a b, r3)
                | None => None
                end
            | _ => None
            end
        | other => other
        end
    end
with parse_eq (fuel : nat) : parser jsexpr :=
  fun ts =>
    match fuel with
    | O => None
    | S n =>
        match parse_postfix n ts with
        | Some (a, r) => parse_eq_rest n a r
        | None => None
        end
    end
with parse_eq_rest (fuel : nat) (a : jsexpr) : parser jsexpr :=
  fun ts =>
    match fuel with
    | O => None
    | S n =>
        match ts with
        | TStrictEq :: r =>
            match parse_postfix n r with
            | Some (b, r') => parse_eq_rest n (JStrictEq a b) r'
            | None => None
            end
        | _ => Some (a, ts)
        end
    end
with parse_postfix (fuel : nat) : parser jsexpr :=
  fun ts =>
    match fuel with
    | O => None
    | S n =>
        match parse_primary n ts with
        | Some (e, r) => parse_postfix_rest n e r
        | None => None
        end
    end
with parse_postfix_rest (fuel : nat) (e : jsexpr) : parser jsexpr :=
  fun ts =>
    match fuel with
    | O => None
    | S n =>
        match ts with
        | TDot :: TIdent p :: r => parse_postfix_rest n (JMember e p) r
        | TLParen :: TRParen :: r => parse_postfix_rest n (JCall e []) r
        | TLParen :: r =>
            match parse_args n r with
            | Some (args, r') => parse_postfix_rest n (JCall e args) r'
            | None => None
            end
        | _ => Some (e, ts)
        end
    end
with parse_args (fuel : nat) : parser (list jsexpr) :=
  fun ts =>
    match fuel with
    | O => None
    | S n =>
        match parse_cond n ts with
        | Some (a, TComma :: r) =>
            match parse_args n r with
            | Some (rest, r') => Some (a :: rest, r')
            | None => None
            end
        | Some (a, TRParen :: r) => Some ([a], r)
        | _ => None
        end
    end
with parse_primary (fuel : nat) : parser jsexpr :=
  fun ts =>
    match fuel with
    | O => None
    | S n =>
        match ts with
        | TIdent x :: r => Some (JVar x, r)
        | TString s :: r => Some (JStr s, r)
        | TLParen :: r =>
            match parse_cond n r with
            | Some (e, TRParen :: r') => Some (e, r')
            | _ => None
            end
        | _ => None
        end
    end.

(** A whole string as one expression. *)
Definition parse (src : string) : option jsexpr :=
  match lex LStart src with
  | Some ts =>
      match parse_cond (8 * (length ts + 1)) ts with
      | Some (e, []) => Some e
      | _ => None
      end
  | None => None
  end.

(** ** Evaluating it in a browser *)

Inductive native : Type := MatchMedia.

Inductive jsval : Type :=
| JUndefined
| JBool (b : bool)
| JString (s : string)
| JObject (props : list (string * jsval))
| JNative (f : native).

(** What the page the expressions run in provides: which media queries
    match, and the value of the global [siteThemeId]. *)
Record browser : Type := Browser {
  media_matches : string -> bool;
  siteThemeId : jsval
}.

Definition prefers_dark (b : browser) : bool :=
  media_matches b "(prefers-color-scheme: dark)".

Definition global (b : browser) (x : string) : option jsval :=
  if String.eqb x "window" then
    Some (JObject [("matchMedia", JNative MatchMedia)])
  else if String.eqb x "siteThemeId" then Some (siteThemeId b)
  else None.

Fixpoint get_prop (props : list (string * jsval)) (p : string) : jsval :=
  match props with
  | [] => JUndefined
  | (q, v) :: rest => if String.eqb q p then v else get_prop rest p
  end.

Definition member (v : jsval) (p : string) : option jsval :=
  match v with
  | JObject props => Some (get_prop props p)
  | _ => None
  end.

Definition apply_native (b : browser) (f : native) (args : list jsval)
    : option jsval :=
  match f, args with
  | MatchMedia, JString q :: _ =>
      Some (JObject [("matches", JBool (media_matches b q));
                     ("media", JString q)])
  | MatchMedia, _ => None
  end.

Definition to_boolean (v : jsval) : bool :=
  match v with
  | JUndefined => false
  | JBool b => b
  | JString s => negb (String.eqb s EmptyString)
  | JObject _ | JNative _ => true
  end.

(** [===]: equal types and equal values; the identity of two objects is not
    decided here. *)
Definition strict_eq (x y : jsval) : option bool :=
  match x, y with
  | JUndefined, JUndefined => Some true
  | JBool a, JBool b => Some (Bool.eqb a b)
  | JString a, JString b => Some (String.eqb a b)
  | (JObject _ | JNative _), (JObject _ | JNative _) => None
  | _, _ => Some false
  end.

Fixpoint eval (b : browser) (e : jsexpr) : option jsval :=
  match e with
  | JVar x => global b x
  | JStr s => Some (JString s)
  | JMember e' p =>
      match eval b e' with
      | Some v => member v p
      | None => None
      end
  | JCall f args =>
      match eval b f with
      | Some (JNative n) =>
          match
            (fix each (es : list jsexpr) : option (list jsval) :=
               match es with
               | [] => Some []
               | e' :: es' =>
                   match eval b e', each es' with
                   | Some v, Some vs => Some (v :: vs)
                   | _, _ => None
                   end
               end) args
          with
          | Some vs => apply_native b n vs
          | None => None
          end
      | _ => None
      end
  | JStrictEq x y =>
      match eval b x, eval b y with
      | Some vx, Some vy =>
          match strict_eq vx vy with
          | Some r => Some (JBool r)
          | None => None
          end
      | _, _ => None
      end
  | JCond c x y =>
      match eval b c with
      | Some v => if to_boolean v then eval b x else eval b y
      | None => None
      end
  end.

(** Reading then evaluating; [None] when the text is outside the fragment or
    the evaluation throws. *)
Definition run (b : browser) (src : string) : option jsval :=
  match parse src with
  | Some e => eval b e
  | None => None
  end.

(** The string literals an expression compares the variable [x] with. *)
Fixpoint compared_with (x : string) (e : jsexpr) : list string :=
  match e with
  | JVar _ | JStr _ => []
  | JMember e' _ => compared_with x e'
  | JCall f args => compared_with x f ++ flat_map (compared_with x) args
  | JStrictEq (JVar y) (JStr s) | JStrictEq (JStr s) (JVar y) =>
      if String.eqb x y then [s] else []
  | JStrictEq a b => compared_with x a ++ compared_with x b
  | JCond c a b => compared_with x c ++ compared_with x a ++ compared_with x b
  end.

End JS.

(** * What Sphinx observes *)

Import Py Conf.

(** The interpreter before the file runs. *)
Definition initial {World : Type} (w : World) : state World :=
  State ∅ [] w [].

(** The interpreter after the module body has run; [themes_dir] is the value
    of [sphinx_utils.HTML_THEMES_DIR]. *)
Definition loaded {World : Type} (themes_dir : value) (w : World)
    : state World :=
  snd (exec themes_dir conf_py (initial w)).

(** The module's namespace once loaded. *)
Definition namespace (themes_dir : value) : gmap string value :=
  st_globals (loaded themes_dir tt).

(** The names the module body binds, in the order it binds them. *)
Definition binding_order : list string :=
  Eval vm_compute in st_writes (loaded VNone tt).

(** The configuration values: the names bound by lines 42-105. *)
Definition config_names : list string := map fst conf_assignments.

(** The two calls [setup] is expected to make. *)
Definition augment_call (app : value) : call :=
  Call (VModule "sphinx_utils") "augment" [app; VStr "programming-guides"] [].

Definition theme_descriptors : list value :=
  [ VDict [(VStr "id", VStr "light"); (VStr "icon", VStr icon_light)];
    VDict [(VStr "id", VStr "dark"); (VStr "icon", VStr icon_dark)] ].

Definition syntax_themes : list value :=
  [ VStr "friendly"; VStr "monokai";
    VStr "sphinx_utils.pygments_styles.cobalt2.Cobalt2Style" ].

Definition default_theme_js : string :=
  "window.matchMedia(" +:+ dq +:+ "(prefers-color-scheme: dark)" +:+ dq
  +:+ ").matches ? " +:+ dq +:+ "monokai" +:+ dq
  +:+ " : " +:+ dq +:+ "friendly" +:+ dq.

Definition default_syntax_theme_js : string :=
  "siteThemeId === " +:+ dq +:+ "dark" +:+ dq
  +:+ " ? " +:+ dq +:+ "monokai" +:+ dq +:+ " : " +:+ dq +:+ "friendly" +:+ dq.

Definition switcher_kwargs : list (string * value) :=
  [ ("syntax_themes", VList syntax_themes);
    ("default_theme", VStr default_theme_js);
    ("default_syntax_theme", VStr default_syntax_theme_js) ].

Definition switcher_call (augment : value) : call :=
  Call augment "theme_switcher" [VList theme_descriptors] switcher_kwargs.

(** Reading a call and a dict. *)
Definition is_theme_switcher (c : call) : bool :=
  String.eqb (c_meth c) "theme_switcher".

Fixpoint assoc {A : Type} (k : string) (kvs : list (string * A)) : option A :=
  match kvs with
  | [] => None
  | (k', v) :: rest => if String.eqb k k' then Some v else assoc k rest
  end.

Definition kwarg (k : string) (c : call) : option value :=
  assoc k (c_kwargs c).

Fixpoint dict_items_get (k : string) (kvs : list (value * value))
    : option value :=
  match kvs with
  | [] => None
  | (VStr k', v) :: rest =>
      if String.eqb k k' then Some v else dict_items_get k rest
  | _ :: rest => dict_items_get k rest
  end.

Definition dict_get (k : string) (v : value) : option value :=
  match v with
  | VDict kvs => dict_items_get k kvs
  | _ => None
  end.

Definition is_str (v : value) : bool :=
  match v with VStr _ => true | _ => false end.

(** A string, a list of strings or a boolean. *)
Definition primitive_shape (v : value) : bool :=
  match v with
  | VStr _ | VBool _ => true
  | VList xs => forallb is_str xs
  | _ => false
  end.

(** What [setup] leaves behind when run on the loaded module. *)
Definition setup_run {World : Type}
    (ext_call : call -> World -> ext_result * World)
    (themes_dir app : value) (w : World) : outcome value * state World :=
  setup ext_call app (loaded themes_dir w).

(** Two behaviours of the external package, for examples: every call hands
    back a fresh object; or [theme_switcher] alone fails. *)
Definition fresh_object (c : call) (w : nat) : ext_result * nat :=
  (ExtReturn (VObj (S w)), S w).

Definition failing_switcher (c : call) (w : nat) : ext_result * nat :=
  if is_theme_switcher c
  then (ExtRaise (Exn "RuntimeError" "theme_switcher failed"), S w)
  else (ExtReturn (VObj (S w)), S w).

Definition failing_augment (c : call) (w : nat) : ext_result * nat :=
  (ExtRaise (Exn "ImportError" "no augment"), S w).

(** The calls of a log that register the theme switcher. *)
Definition registrations (calls : list call) : list call :=
  List.filter is_theme_switcher calls.

(** [v === s] for a string [s]. *)
Definition is_js_string (s : string) (v : JS.jsval) : bool :=
  match v with
  | JS.JString t => String.eqb t s
  | _ => false
  end.

(** The dict [intersphinx_mapping] is bound to. *)
Definition intersphinx_value : value :=
  VDict [(VStr "python", VTuple [VStr "https://docs.python.org/3"; VNone])].

(** The configuration values whose right-hand side is computed rather than
    written out. *)
Definition computed_names : list string :=
  ["copyright"; "release"; "html_theme_path"].

Definition mem (x : string) (xs : list string) : bool :=
  existsb (String.eqb x) xs.

(** A step of the monad that leaves the module's names alone. *)
Definition preserves_globals {World A : Type} (m : M World A) : Prop :=
  forall st,
    st_globals (snd (m st)) = st_globals st
    /\ st_writes (snd (m st)) = st_writes st.

(** ** The palette names as parameters *)

(** The two expressions [setup] builds, for arbitrary palette names in place
    of the two module constants. *)
Definition default_theme_expr (dark light : string) : string :=
  "window.matchMedia(" +:+ dq +:+ "(prefers-color-scheme: dark)" +:+ dq
  +:+ ").matches ? " +:+ dq +:+ dark +:+ dq
  +:+ " : " +:+ dq +:+ light +:+ dq.

Definition default_syntax_theme_expr (dark light : string) : string :=
  "siteThemeId === " +:+ dq +:+ "dark" +:+ dq
  +:+ " ? " +:+ dq +:+ dark +:+ dq +:+ " : " +:+ dq +:+ light +:+ dq.

(** The registration for arbitrary palette names. *)
Definition palette_call (augment : value) (dark light : string) : call :=
  Call augment "theme_switcher" [VList theme_descriptors]
    [ ("syntax_themes",
         VList [ VStr light; VStr dark;
                 VStr "sphinx_utils.pygments_styles.cobalt2.Cobalt2Style" ]);
      ("default_theme", VStr (default_theme_expr dark light));
      ("default_syntax_theme", VStr (default_syntax_theme_expr dark light)) ].

(** The call that creates the augment, on whatever [sphinx_utils] is bound
    to. *)
Definition augment_call_on (su app : value) : call :=
  Call su "augment" [app; VStr "programming-guides"] [].

(** Text without braces: [format] copies it. *)
Fixpoint brace_free (s : string) : bool :=
  match s with
  | EmptyString => true
  | String c rest =>
      (negb (Ascii.eqb c "{") && negb (Ascii.eqb c "}") && brace_free rest)%bool
  end.

(** Text that can stand between double quotes in JavaScript as it is: no
    double quote, no backslash, no line feed, no carriage return. *)
Definition js_plain_char (c : ascii) : bool :=
  (negb (Ascii.eqb c dquote) && negb (Ascii.eqb c "\")
   && negb (Ascii.eqb c "010") && negb (Ascii.eqb c "013"))%bool.

Fixpoint js_plain (s : string) : bool :=
  match s with
  | EmptyString => true
  | String c rest => (js_plain_char c && js_plain rest)%bool
  end.

(** ** Reading without writing *)




(** Induction on expressions that reaches into the displays. *)
Section ExprInduction.

Variable P : expr -> Prop.
Hypothesis HStr : forall s, P (EStr s).
Hypothesis HBool : forall b, P (EBool b).
Hypothesis HNone : P ENone.
Hypothesis HName : forall x, P (EName x).
Hypothesis HAttr : forall e attr, P e -> P (EAttr e attr).
Hypothesis HAdd : forall e1 e2, P e1 -> P e2 -> P (EAdd e1 e2).
Hypothesis HList : forall es, Forall P es -> P (EList es).
Hypothesis HTuple : forall es, Forall P es -> P (ETuple es).
Hypothesis HDict :
  forall kvs, Forall (fun kv => P (fst kv) /\ P (snd kv)) kvs -> P (EDict kvs).


End ExprInduction.

(** * Properties *)

(** ** The monad, one step at a time *)

Section Steps.

Context {World : Type}.
Variable ext_call : call -> World -> ext_result * World.

Lemma bind_lookup {A} (x : string) (v : value) (k : value -> M World A)
    (g : gmap string value) ws (w : World) cs :
  g !! x = Some v ->
  bind (lookup_name x) k (State g ws w cs) = k v (State g ws w cs).
Proof. intros H. unfold bind, lookup_name. cbn [st_globals]. now rewrite H. Qed.

Lemma bind_lift {A B} (a : A) (k : A -> M World B) (st : state World) :
  bind (lift (Returned a)) k st = k a st.
Proof. reflexivity. Qed.

Lemma bind_call {A} recv meth args kwargs (k : value -> M World A)
    (st : state World) :
  bind (call_method ext_call recv meth args kwargs) k st =
  let c := Call recv meth args kwargs in
  let st' w' := State (st_globals st) (st_writes st) w' (st_calls st ++ [c]) in
  match ext_call c (st_world st) with
  | (ExtReturn v, w') => k v (st' w')
  | (ExtRaise e, w') => (Raised e, st' w')
  end.
Proof.
  unfold bind, call_method. cbn zeta.
  destruct (ext_call _ _) as [[v | e] w']; reflexivity.
Qed.

End Steps.

(** ** The loaded module *)

Lemma format_default_theme :
  py_format default_theme_template [VStr "monokai"; VStr "friendly"]
  = Returned default_theme_js.
Proof. vm_compute. reflexivity. Qed.

Lemma format_default_syntax_theme :
  py_format default_syntax_theme_template [VStr "monokai"; VStr "friendly"]
  = Returned default_syntax_theme_js.
Proof. vm_compute. reflexivity. Qed.

Lemma loaded_state {World : Type} (d : value) (w : World) :
  exec d conf_py (initial w)
  = (Returned tt, State (namespace d) binding_order w []).
Proof. vm_compute. reflexivity. Qed.

Lemma loaded_eq {World : Type} (d : value) (w : World) :
  loaded d w = State (namespace d) binding_order w [].
Proof. unfold loaded at 1. now rewrite loaded_state. Qed.

Lemma namespace_sphinx_utils d :
  namespace d !! "sphinx_utils" = Some (VModule "sphinx_utils").
Proof. vm_compute. reflexivity. Qed.

Lemma namespace_light d :
  namespace d !! "DEFAULT_LIGHT_SYNTAX_THEME" = Some (VStr "friendly").
Proof. vm_compute. reflexivity. Qed.

Lemma namespace_dark d :
  namespace d !! "DEFAULT_DARK_SYNTAX_THEME" = Some (VStr "monokai").
Proof. vm_compute. reflexivity. Qed.

(** [setup] unfolded, on any state that binds the three names it reads as the
    module does: two external calls in a row, the second only if the first
    returns. *)
Lemma setup_eq {World : Type}
    (ext_call : call -> World -> ext_result * World)
    (g : gmap string value) ws cs app w :
  g !! "sphinx_utils" = Some (VModule "sphinx_utils") ->
  g !! "DEFAULT_LIGHT_SYNTAX_THEME" = Some (VStr "friendly") ->
  g !! "DEFAULT_DARK_SYNTAX_THEME" = Some (VStr "monokai") ->
  setup ext_call app (State g ws w cs) =
  match ext_call (augment_call app) w with
  | (ExtRaise e, w1) => (Raised e, State g ws w1 (cs ++ [augment_call app]))
  | (ExtReturn a, w1) =>
      let cs' := (cs ++ [augment_call app]) ++ [switcher_call a] in
      match ext_call (switcher_call a) w1 with
      | (ExtRaise e, w2) => (Raised e, State g ws w2 cs')
      | (ExtReturn _, w2) => (Returned VNone, State g ws w2 cs')
      end
  end.
Proof.
  intros Hsu Hl Hd. unfold setup.
  rewrite (bind_lookup _ _ _ _ _ _ _ Hsu), bind_call.
  cbn [st_world st_globals st_writes st_calls].
  change (Call (VModule "sphinx_utils") _ _ _) with (augment_call app).
  destruct (ext_call (augment_call app) w) as [[a | e] w1]; [| reflexivity].
  rewrite (bind_lookup _ _ _ _ _ _ _ Hl), (bind_lookup _ _ _ _ _ _ _ Hd).
  rewrite (bind_lookup _ _ _ _ _ _ _ Hd), (bind_lookup _ _ _ _ _ _ _ Hl).
  rewrite format_default_theme, bind_lift.
  rewrite (bind_lookup _ _ _ _ _ _ _ Hd), (bind_lookup _ _ _ _ _ _ _ Hl).
  rewrite format_default_syntax_theme, bind_lift, bind_call.
  cbn [st_world st_globals st_writes st_calls].
  change (Call a "theme_switcher" _ _) with (switcher_call a).
  destruct (ext_call (switcher_call a) w1) as [[v | e] w2]; reflexivity.
Qed.

Lemma setup_run_eq {World : Type}
    (ext_call : call -> World -> ext_result * World) d app w :
  setup_run ext_call d app w =
  match ext_call (augment_call app) w with
  | (ExtRaise e, w1) =>
      (Raised e,
       State (namespace d) binding_order w1 [augment_call app])
  | (ExtReturn a, w1) =>
      let cs := [augment_call app; switcher_call a] in
      match ext_call (switcher_call a) w1 with
      | (ExtRaise e, w2) =>
          (Raised e, State (namespace d) binding_order w2 cs)
      | (ExtReturn _, w2) =>
          (Returned VNone,
           State (namespace d) binding_order w2 cs)
      end
  end.
Proof.
  unfold setup_run. rewrite loaded_eq.
  apply (setup_eq ext_call (namespace d) _ [] app w
           (namespace_sphinx_utils d) (namespace_light d) (namespace_dark d)).
Qed.

Lemma registrations_run {World : Type}
    (ext_call : call -> World -> ext_result * World) d app w w1 a :
  ext_call (augment_call app) w = (ExtReturn a, w1) ->
  registrations (st_calls (snd (setup_run ext_call d app w)))
  = [switcher_call a].
Proof.
  intros H. rewrite setup_run_eq, H. cbn zeta.
  destruct (ext_call (switcher_call a) w1) as [[v | e] w2]; reflexivity.
Qed.

(** The log of external calls [setup] leaves. *)
Lemma calls_run {World : Type}
    (ext_call : call -> World -> ext_result * World) d app w :
  st_calls (snd (setup_run ext_call d app w)) =
  match ext_call (augment_call app) w with
  | (ExtReturn a, _) => [augment_call app; switcher_call a]
  | (ExtRaise _, _) => [augment_call app]
  end.
Proof.
  rewrite setup_run_eq.
  destruct (ext_call (augment_call app) w) as [[a | e] w1]; [| reflexivity].
  cbn zeta.
  destruct (ext_call (switcher_call a) w1) as [[v | e] w2]; reflexivity.
Qed.

(** ** The model on small inputs *)

Example binding_order_eq :
  binding_order =
  [ "sphinx_utils"; "sys"; "Path"; "DEFAULT_LIGHT_SYNTAX_THEME";
    "DEFAULT_DARK_SYNTAX_THEME"; "setup"; "needs_sphinx"; "extensions";
    "intersphinx_mapping"; "templates_path"; "source_suffix"; "master_doc";
    "project"; "author"; "copyright"; "version"; "release"; "language";
    "exclude_patterns"; "todo_include_todos"; "smartquotes"; "html_theme";
    "html_theme_path"; "html_show_copyright"; "html_show_sphinx";
    "html_title"; "html_favicon" ].
Proof. reflexivity. Qed.

Example format_escapes :
  py_format "{{{}}} and {}" [VStr "a"; VNone; VStr "unused"]
  = Returned "{a} and None".
Proof. reflexivity. Qed.

Example format_too_few :
  py_format "{} {}" [VStr "a"]
  = Raised (Exn "IndexError"
              "Replacement index out of range for positional args tuple").
Proof. reflexivity. Qed.

Example format_single_brace :
  py_format "a}b" []
  = Raised (Exn "ValueError" "Single '}' encountered in format string").
Proof. reflexivity. Qed.

Example format_named_field : py_format "{name}" [VStr "a"] = Unmodelled.
Proof. reflexivity. Qed.

(** [theme_switcher] fails: [setup] fails with the same exception, after both
    calls. *)
Example run_failing_switcher :
  fst (setup_run failing_switcher (VStr "_themes") (VObj 0) 0)
    = Raised (Exn "RuntimeError" "theme_switcher failed")
  /\ st_calls (snd (setup_run failing_switcher (VStr "_themes") (VObj 0) 0))
     = [augment_call (VObj 0); switcher_call (VObj 1)].
Proof. split; vm_compute; reflexivity. Qed.

(** [sphinx_utils.augment] fails: [theme_switcher] is never reached. *)
Example run_failing_augment :
  fst (setup_run failing_augment (VStr "_themes") (VObj 0) 0)
    = Raised (Exn "ImportError" "no augment")
  /\ st_calls (snd (setup_run failing_augment (VStr "_themes") (VObj 0) 0))
     = [augment_call (VObj 0)].
Proof. split; vm_compute; reflexivity. Qed.

Example js_precedence :
  JS.parse "a === b ? f(x, y).z : (g() ? h : i)"
  = Some (JS.JCond (JS.JStrictEq (JS.JVar "a") (JS.JVar "b"))
            (JS.JMember
               (JS.JCall (JS.JVar "f") [JS.JVar "x"; JS.JVar "y"]) "z")
            (JS.JCond (JS.JCall (JS.JVar "g") []) (JS.JVar "h")
               (JS.JVar "i"))).
Proof. vm_compute. reflexivity. Qed.

Example js_loose_equality_unread : JS.parse "a == b" = None.
Proof. vm_compute. reflexivity. Qed.

Example js_undefined_site_theme :
  JS.run (JS.Browser (fun _ => false) JS.JUndefined) default_syntax_theme_js
  = Some (JS.JString "friendly").
Proof. vm_compute. reflexivity. Qed.

(** ** The two JavaScript expressions *)

Lemma parse_default_theme :
  JS.parse default_theme_js
  = Some (JS.JCond
            (JS.JMember
               (JS.JCall (JS.JMember (JS.JVar "window") "matchMedia")
                  [JS.JStr "(prefers-color-scheme: dark)"])
               "matches")
            (JS.JStr "monokai") (JS.JStr "friendly")).
Proof. vm_compute. reflexivity. Qed.

Lemma parse_default_syntax_theme :
  JS.parse default_syntax_theme_js
  = Some (JS.JCond (JS.JStrictEq (JS.JVar "siteThemeId") (JS.JStr "dark"))
            (JS.JStr "monokai") (JS.JStr "friendly")).
Proof. vm_compute. reflexivity. Qed.

Lemma run_default_theme (b : JS.browser) :
  JS.run b default_theme_js
  = Some (JS.JString (if JS.prefers_dark b then "monokai" else "friendly")).
Proof.
  unfold JS.run. rewrite parse_default_theme.
  unfold JS.prefers_dark. cbn.
  destruct (JS.media_matches b _); reflexivity.
Qed.

Lemma run_default_syntax_theme (b : JS.browser) :
  JS.run b default_syntax_theme_js
  = Some (JS.JString
            (if is_js_string "dark" (JS.siteThemeId b)
             then "monokai" else "friendly")).
Proof.
  unfold JS.run. rewrite parse_default_syntax_theme.
  cbn. destruct (JS.siteThemeId b) as [| c | s | props | f]; cbn;
    try reflexivity.
  destruct (String.eqb s "dark"); reflexivity.
Qed.

(** ** Steps that leave the module's names alone *)

Section Frame.

Context {World : Type}.
Variable ext_call : call -> World -> ext_result * World.

Lemma preserves_ret {A} (a : A) : preserves_globals (ret (World := World) a).
Proof. intros st. split; reflexivity. Qed.

Lemma preserves_lift {A} (r : outcome A) :
  preserves_globals (lift (World := World) r).
Proof. intros st. split; reflexivity. Qed.

Lemma preserves_lookup (x : string) :
  preserves_globals (lookup_name (World := World) x).
Proof.
  intros st. unfold lookup_name.
  destruct (st_globals st !! x); split; reflexivity.
Qed.

Lemma preserves_call recv meth args kwargs :
  preserves_globals (call_method ext_call recv meth args kwargs).
Proof.
  intros st. unfold call_method.
  destruct (ext_call _ _) as [[v | e] w']; split; reflexivity.
Qed.

Lemma preserves_bind {A B} (m : M World A) (k : A -> M World B) :
  preserves_globals m ->
  (forall a, preserves_globals (k a)) ->
  preserves_globals (bind m k).
Proof.
  intros Hm Hk st. unfold bind.
  destruct (Hm st) as [Hg Hw].
  destruct (m st) as [[a | e |] st']; cbn [snd] in *.
  - destruct (Hk a st') as [Hg' Hw']. split; congruence.
  - split; assumption.
  - split; assumption.
Qed.

Lemma preserves_setup (app : value) : preserves_globals (setup ext_call app).
Proof.
  unfold setup.
  repeat (apply preserves_bind; [| intros ?]);
    auto using preserves_ret, preserves_lift, preserves_lookup,
               preserves_call.
Qed.

End Frame.

(** * The claims *)

(** C1: when [sphinx_utils.augment(app, 'programming-guides')] hands back an
    augment, [setup] calls that augment's [theme_switcher] exactly once, and
    the arguments are fixed: one list of exactly two descriptors with the ids
    'light' and 'dark', each with an icon; a [syntax_themes] list of exactly
    three palette names; and the two strings [default_theme] and
    [default_syntax_theme]. *)
Theorem setup_registers_once {World : Type}
    (ext_call : call -> World -> ext_result * World)
    (d app a : value) (w w1 : World) :
  ext_call (augment_call app) w = (ExtReturn a, w1) ->
  registrations (st_calls (snd (setup_run ext_call d app w)))
    = [switcher_call a]
  /\ c_recv (switcher_call a) = a
  /\ c_args (switcher_call a) = [VList theme_descriptors]
  /\ length theme_descriptors = 2
  /\ map (dict_get "id") theme_descriptors
       = [Some (VStr "light"); Some (VStr "dark")]
  /\ Forall (fun t => exists icon, dict_get "icon" t = Some (VStr icon))
       theme_descriptors
  /\ map fst (c_kwargs (switcher_call a))
       = ["syntax_themes"; "default_theme"; "default_syntax_theme"]
  /\ (exists s1 s2 s3,
        kwarg "syntax_themes" (switcher_call a)
        = Some (VList [VStr s1; VStr s2; VStr s3]))
  /\ (exists e1 e2,
        kwarg "default_theme" (switcher_call a) = Some (VStr e1)
        /\ kwarg "default_syntax_theme" (switcher_call a) = Some (VStr e2)).
Proof.
  intros H. split; [exact (registrations_run ext_call d app w w1 a H) |].
  repeat split.
  - repeat constructor; eexists; reflexivity.
  - do 3 eexists. reflexivity.
  - do 2 eexists. split; reflexivity.
Qed.

Lemma setup_registers_once_witness :
  fresh_object (augment_call (VObj 0)) 0 = (ExtReturn (VObj 1), 1)
  /\ registrations
       (st_calls (snd (setup_run fresh_object (VStr "_themes") (VObj 0) 0)))
     = [switcher_call (VObj 1)].
Proof.
  split; [reflexivity |].
  apply (setup_registers_once fresh_object (VStr "_themes") (VObj 0) (VObj 1)
           0 1).
  reflexivity.
Defined.

(** C2: the two strings [setup] passes are JavaScript conditionals.  In any
    browser, [default_theme] evaluates to 'monokai', the value of
    [DEFAULT_DARK_SYNTAX_THEME], when the media query
    [(prefers-color-scheme: dark)] matches and to 'friendly', the value of
    [DEFAULT_LIGHT_SYNTAX_THEME], otherwise; [default_syntax_theme] evaluates
    to 'monokai' when [siteThemeId] is the string "dark" and to 'friendly'
    otherwise. *)
Theorem expressions_select_theme {World : Type}
    (ext_call : call -> World -> ext_result * World)
    (d app a : value) (w w1 : World) (b : JS.browser) :
  ext_call (augment_call app) w = (ExtReturn a, w1) ->
  exists c e1 e2 dark light,
    registrations (st_calls (snd (setup_run ext_call d app w))) = [c]
    /\ kwarg "default_theme" c = Some (VStr e1)
    /\ kwarg "default_syntax_theme" c = Some (VStr e2)
    /\ namespace d !! "DEFAULT_DARK_SYNTAX_THEME" = Some (VStr dark)
    /\ namespace d !! "DEFAULT_LIGHT_SYNTAX_THEME" = Some (VStr light)
    /\ dark = "monokai" /\ light = "friendly"
    /\ JS.run b e1
       = Some (JS.JString (if JS.prefers_dark b then dark else light))
    /\ JS.run b e2
       = Some (JS.JString
                 (if is_js_string "dark" (JS.siteThemeId b)
                  then dark else light)).
Proof.
  intros H.
  exists (switcher_call a), default_theme_js, default_syntax_theme_js,
    "monokai", "friendly".
  split; [exact (registrations_run ext_call d app w w1 a H) |].
  split; [reflexivity |]. split; [reflexivity |].
  split; [apply namespace_dark |]. split; [apply namespace_light |].
  split; [reflexivity |]. split; [reflexivity |].
  split; [apply run_default_theme | apply run_default_syntax_theme].
Qed.

Lemma expressions_select_theme_witness :
  fresh_object (augment_call (VObj 0)) 0 = (ExtReturn (VObj 1), 1)
  /\ exists c e1 e2 dark light,
       registrations
         (st_calls (snd (setup_run fresh_object (VStr "_themes") (VObj 0) 0)))
       = [c]
       /\ kwarg "default_theme" c = Some (VStr e1)
       /\ kwarg "default_syntax_theme" c = Some (VStr e2)
       /\ namespace (VStr "_themes") !! "DEFAULT_DARK_SYNTAX_THEME"
          = Some (VStr dark)
       /\ namespace (VStr "_themes") !! "DEFAULT_LIGHT_SYNTAX_THEME"
          = Some (VStr light)
       /\ dark = "monokai" /\ light = "friendly"
       /\ JS.run (JS.Browser (fun _ => true) (JS.JString "light")) e1
          = Some (JS.JString dark)
       /\ JS.run (JS.Browser (fun _ => true) (JS.JString "light")) e2
          = Some (JS.JString light).
Proof.
  split; [reflexivity |].
  apply (expressions_select_theme fresh_object (VStr "_themes") (VObj 0)
           (VObj 1) 0 1 (JS.Browser (fun _ => true) (JS.JString "light"))).
  reflexivity.
Defined.

(** C4: [setup] has no error handling of its own.  On the loaded module it
    raises [e] exactly when one of its two external calls raises [e]: the
    call of [sphinx_utils.augment], or, once that has returned, the call of
    [theme_switcher].  The exception is the external one, unchanged; nothing
    else in [setup] raises, and otherwise [setup] returns [None]. *)
Theorem setup_raises_iff_external {World : Type}
    (ext_call : call -> World -> ext_result * World)
    (d app : value) (w : World) :
  (forall e,
     fst (setup_run ext_call d app w) = Raised e <->
     (exists w1, ext_call (augment_call app) w = (ExtRaise e, w1))
     \/ (exists a w1 w2,
           ext_call (augment_call app) w = (ExtReturn a, w1)
           /\ ext_call (switcher_call a) w1 = (ExtRaise e, w2)))
  /\ (fst (setup_run ext_call d app w) = Returned VNone
      \/ exists e, fst (setup_run ext_call d app w) = Raised e).
Proof.
  rewrite setup_run_eq.
  destruct (ext_call (augment_call app) w) as [[a | e1] w1] eqn:E1.
  - cbn zeta.
    destruct (ext_call (switcher_call a) w1) as [[v | e2] w2] eqn:E2;
      cbn [fst].
    + split; [| left; reflexivity].
      intros e. split; [discriminate |].
      intros [[w1' H] | (a' & w1' & w2' & Ha & Hs)]; [discriminate |].
      injection Ha as <- <-. rewrite E2 in Hs. discriminate.
    + split; [| right; eexists; reflexivity].
      intros e. split.
      * intros [= <-]. right. exists a, w1, w2. split; [reflexivity | exact E2].
      * intros [[w1' H] | (a' & w1' & w2' & Ha & Hs)]; [discriminate |].
        injection Ha as <- <-. rewrite E2 in Hs. congruence.
  - cbn [fst]. split; [| right; eexists; reflexivity].
    intros e. split.
    + intros [= <-]. left. exists w1. reflexivity.
    + intros [[w1' H] | (a' & w1' & w2' & Ha & Hs)]; congruence.
Qed.

(** C5: whatever the application handle and whatever the external package
    does, [setup] follows one straight path: the call of
    [sphinx_utils.augment], then the one call of [theme_switcher] with the
    fixed arguments.  The path is cut short only by an exception of the first
    call, nothing is called a second time, and [theme_switcher] is called at
    most once. *)
Theorem setup_straight_line {World : Type}
    (ext_call : call -> World -> ext_result * World)
    (d app : value) (w : World) :
  let calls := st_calls (snd (setup_run ext_call d app w)) in
  (calls = [augment_call app]
   \/ exists a, calls = [augment_call app; switcher_call a])
  /\ map c_meth calls = firstn (length calls) ["augment"; "theme_switcher"]
  /\ length (registrations calls) <= 1
  /\ ((exists a w1, ext_call (augment_call app) w = (ExtReturn a, w1))
      <-> length (registrations calls) = 1).
Proof.
  cbn zeta. rewrite calls_run.
  destruct (ext_call (augment_call app) w) as [[a | e1] w1] eqn:E1.
  - split; [right; exists a; reflexivity |].
    split; [reflexivity |]. split; [cbn; lia |].
    split; [reflexivity | intros _; exists a, w1; reflexivity].
  - split; [left; reflexivity |]. split; [reflexivity |].
    split; [cbn; lia |].
    split; [intros (a & w1' & H); discriminate | cbn; discriminate].
Qed.

(** C3, as the file has it: the claim that every configuration value is a
    string, list-of-strings or boolean literal fails at
    [intersphinx_mapping].  Every other configuration value is a string, a
    list of strings or a boolean, [html_theme_path] being the one-element
    list of [sphinx_utils.HTML_THEMES_DIR], here a string;
    [intersphinx_mapping] is a dict sending 'python' to the tuple
    ('https://docs.python.org/3', None).  The right-hand sides are literals
    except those of [copyright], [release] and [html_theme_path], which are
    computed from [author], [version] and [sphinx_utils.HTML_THEMES_DIR]. *)
Theorem config_value_shapes (d : value) (name : string) (e : expr) :
  is_str d = true ->
  In (name, e) conf_assignments ->
  exists v,
    namespace d !! name = Some v
    /\ (if String.eqb name "intersphinx_mapping"
        then v = intersphinx_value
        else primitive_shape v = true)
    /\ is_literal e = negb (mem name computed_names).
Proof.
  intros Hd Hin. destruct d; try discriminate Hd.
  cbn in Hin.
  repeat (destruct Hin as [[= <- <-] | Hin];
          [eexists; split; [vm_compute; reflexivity | split; reflexivity] |]).
  contradiction.
Qed.

Lemma config_value_shapes_witness :
  is_str (VStr "_themes") = true
  /\ In ("html_theme_path",
         EList [EAttr (EName "sphinx_utils") "HTML_THEMES_DIR"])
        conf_assignments
  /\ exists v,
       namespace (VStr "_themes") !! "html_theme_path" = Some v
       /\ primitive_shape v = true
       /\ is_literal (EList [EAttr (EName "sphinx_utils") "HTML_THEMES_DIR"])
          = false.
Proof.
  split; [reflexivity |].
  split; [cbn; tauto |].
  apply (config_value_shapes (VStr "_themes") "html_theme_path"
           (EList [EAttr (EName "sphinx_utils") "HTML_THEMES_DIR"]));
    [reflexivity | cbn; tauto].
Defined.

(** C3, as the claim states it, is false: [intersphinx_mapping] is a
    configuration value written as a literal, and it is a dict, not a string,
    a list of strings or a boolean. *)
Lemma config_values_not_all_primitive :
  ~ (forall name e,
       In (name, e) conf_assignments ->
       is_literal e = true
       /\ exists v,
            namespace (VStr "_themes") !! name = Some v
            /\ primitive_shape v = true).
Proof.
  intros H.
  destruct (H "intersphinx_mapping"
              (EDict [(EStr "python",
                       ETuple [EStr "https://docs.python.org/3"; ENone])]))
    as [_ (v & Hv & Hp)]; [cbn; tauto |].
  assert (Hv' : namespace (VStr "_themes") !! "intersphinx_mapping"
                = Some intersphinx_value) by (vm_compute; reflexivity).
  rewrite Hv' in Hv. injection Hv as <-. discriminate Hp.
Qed.

(** C6: once the module is loaded, [source_suffix] is the string '.rst',
    which begins with a dot, and [html_theme] is the string 'advice', which is
    not empty. *)
Theorem source_suffix_and_html_theme (d : value) :
  exists suffix theme,
    namespace d !! "source_suffix" = Some (VStr suffix)
    /\ suffix = ".rst"
    /\ String.prefix "." suffix = true
    /\ namespace d !! "html_theme" = Some (VStr theme)
    /\ theme = "advice"
    /\ theme <> EmptyString.
Proof.
  exists ".rst", "advice".
  split; [vm_compute; reflexivity |]. split; [reflexivity |].
  split; [reflexivity |]. split; [vm_compute; reflexivity |].
  split; [reflexivity | discriminate].
Qed.

(** C7: the module body runs to its end binding every name once: no name is
    the target of two assignments, neither among the configuration values nor
    among all the names the file binds.  And [setup], run on any state and
    with any external package, leaves the module's namespace and the record of
    bindings as they were. *)
Theorem config_never_rebound {World : Type}
    (ext_call : call -> World -> ext_result * World)
    (d app : value) (w : World) (st : state World) :
  fst (exec d conf_py (initial w)) = Returned tt
  /\ NoDup config_names
  /\ NoDup (st_writes (loaded d w))
  /\ (forall x, In x config_names -> In x (st_writes (loaded d w)))
  /\ st_globals (snd (setup ext_call app st)) = st_globals st
  /\ st_writes (snd (setup ext_call app st)) = st_writes st
  /\ st_globals (snd (setup_run ext_call d app w)) = namespace d.
Proof.
  split; [rewrite loaded_state; reflexivity |].
  split; [apply (bool_decide_unpack _); vm_compute; exact I |].
  rewrite loaded_eq. cbn [st_writes].
  split; [apply (bool_decide_unpack _); vm_compute; exact I |].
  split.
  { intros x Hx.
    assert (Hb : forallb (fun y => mem y binding_order) config_names = true)
      by (vm_compute; reflexivity).
    apply (proj1 (List.forallb_forall _ _) Hb) in Hx.
    apply List.existsb_exists in Hx as (y & Hy & Heq).
    apply String.eqb_eq in Heq. subst y. exact Hy. }
  destruct (preserves_setup ext_call app st) as [Hg Hw].
  split; [exact Hg |]. split; [exact Hw |].
  unfold setup_run.
  destruct (preserves_setup ext_call app (loaded d w)) as [Hg' _].
  rewrite Hg', loaded_eq. reflexivity.
Qed.

(** C8: two runs of [setup] with the same application handle, started in
    any two states of the outside world, register the same thing.  Whenever
    [sphinx_utils.augment] hands back an augment in both, each run makes one
    registration, and the two agree on the method, the theme descriptors, the
    syntax themes and the two expressions; they are one and the same call when
    the augment is the same.  Run from the same outside state, the two runs
    are equal altogether. *)
Theorem setup_deterministic {World : Type}
    (ext_call : call -> World -> ext_result * World)
    (d app a a' : value) (w w' w1 w1' : World) :
  ext_call (augment_call app) w = (ExtReturn a, w1) ->
  ext_call (augment_call app) w' = (ExtReturn a', w1') ->
  exists c c',
    registrations (st_calls (snd (setup_run ext_call d app w))) = [c]
    /\ registrations (st_calls (snd (setup_run ext_call d app w'))) = [c']
    /\ c_meth c = c_meth c'
    /\ c_args c = c_args c'
    /\ c_kwargs c = c_kwargs c'
    /\ (a = a' -> c = c')
    /\ (w = w' ->
        setup_run ext_call d app w = setup_run ext_call d app w').
Proof.
  intros H H'. exists (switcher_call a), (switcher_call a').
  split; [exact (registrations_run ext_call d app w w1 a H) |].
  split; [exact (registrations_run ext_call d app w' w1' a' H') |].
  split; [reflexivity |]. split; [reflexivity |]. split; [reflexivity |].
  split; intros ->; reflexivity.
Qed.

Lemma setup_deterministic_witness :
  fresh_object (augment_call (VObj 0)) 0 = (ExtReturn (VObj 1), 1)
  /\ fresh_object (augment_call (VObj 0)) 5 = (ExtReturn (VObj 6), 6)
  /\ exists c c',
       registrations
         (st_calls (snd (setup_run fresh_object (VStr "_themes") (VObj 0) 0)))
       = [c]
       /\ registrations
            (st_calls
               (snd (setup_run fresh_object (VStr "_themes") (VObj 0) 5)))
          = [c']
       /\ c_meth c = c_meth c'
       /\ c_args c = c_args c'
       /\ c_kwargs c = c_kwargs c'
       /\ (VObj 1 = VObj 6 -> c = c')
       /\ (0 = 5 ->
           setup_run fresh_object (VStr "_themes") (VObj 0) 0
           = setup_run fresh_object (VStr "_themes") (VObj 0) 5).
Proof.
  split; [reflexivity |]. split; [reflexivity |].
  apply (setup_deterministic fresh_object (VStr "_themes") (VObj 0)
           (VObj 1) (VObj 6) 0 5 1 6); reflexivity.
Defined.

(** C9: what [setup] registers hangs together.  Whatever either expression
    evaluates to, in any browser, is a string that occurs in the
    [syntax_themes] list of the same call; and the one literal the
    [default_syntax_theme] expression compares [siteThemeId] with, "dark", is
    the id of one of the theme descriptors of that call. *)
Theorem registration_consistent {World : Type}
    (ext_call : call -> World -> ext_result * World)
    (d app a : value) (w w1 : World) :
  ext_call (augment_call app) w = (ExtReturn a, w1) ->
  exists c descriptors themes e1 e2 ast,
    registrations (st_calls (snd (setup_run ext_call d app w))) = [c]
    /\ c_args c = [VList descriptors]
    /\ kwarg "syntax_themes" c = Some (VList themes)
    /\ kwarg "default_theme" c = Some (VStr e1)
    /\ kwarg "default_syntax_theme" c = Some (VStr e2)
    /\ (forall b : JS.browser,
          exists s, JS.run b e1 = Some (JS.JString s) /\ In (VStr s) themes)
    /\ (forall b : JS.browser,
          exists s, JS.run b e2 = Some (JS.JString s) /\ In (VStr s) themes)
    /\ JS.parse e2 = Some ast
    /\ JS.compared_with "siteThemeId" ast = ["dark"]
    /\ In (Some (VStr "dark")) (map (dict_get "id") descriptors).
Proof.
  intros H.
  exists (switcher_call a), theme_descriptors, syntax_themes,
    default_theme_js, default_syntax_theme_js.
  eexists.
  split; [exact (registrations_run ext_call d app w w1 a H) |].
  do 4 (split; [reflexivity |]).
  split.
  { intros b. rewrite run_default_theme.
    destruct (JS.prefers_dark b); eexists; (split; [reflexivity |]);
      cbn; tauto. }
  split.
  { intros b. rewrite run_default_syntax_theme.
    destruct (is_js_string "dark" (JS.siteThemeId b)); eexists;
      (split; [reflexivity |]); cbn; tauto. }
  split; [exact parse_default_syntax_theme |].
  split; [reflexivity |].
  cbn. tauto.
Qed.

Lemma registration_consistent_witness :
  fresh_object (augment_call (VObj 0)) 0 = (ExtReturn (VObj 1), 1)
  /\ exists c descriptors themes e1 e2 ast,
       registrations
         (st_calls (snd (setup_run fresh_object (VStr "_themes") (VObj 0) 0)))
       = [c]
       /\ c_args c = [VList descriptors]
       /\ kwarg "syntax_themes" c = Some (VList themes)
       /\ kwarg "default_theme" c = Some (VStr e1)
       /\ kwarg "default_syntax_theme" c = Some (VStr e2)
       /\ (forall b : JS.browser,
             exists s, JS.run b e1 = Some (JS.JString s) /\ In (VStr s) themes)
       /\ (forall b : JS.browser,
             exists s, JS.run b e2 = Some (JS.JString s) /\ In (VStr s) themes)
       /\ JS.parse e2 = Some ast
       /\ JS.compared_with "siteThemeId" ast = ["dark"]
       /\ In (Some (VStr "dark")) (map (dict_get "id") descriptors).
Proof.
  split; [reflexivity |].
  apply (registration_consistent fresh_object (VStr "_themes") (VObj 0)
           (VObj 1) 0 1).
  reflexivity.
Defined.

(** C10: [copyright] is assigned ['2020, ' + author].  In any state in which
    [author] is bound to a string, executing that assignment binds
    [copyright] to '2020, ' followed by that string, so the value ends with
    the author; in the file itself this is '2020, Aran-Fey'. *)
Theorem copyright_from_author {World : Type}
    (d : value) (st : state World) (a : string) :
  st_globals st !! "author" = Some (VStr a) ->
  assoc "copyright" conf_assignments
    = Some (EAdd (EStr "2020, ") (EName "author"))
  /\ fst (exec_stmt d
            (SAssign "copyright" (EAdd (EStr "2020, ") (EName "author"))) st)
     = Returned tt
  /\ st_globals
       (snd (exec_stmt d
               (SAssign "copyright" (EAdd (EStr "2020, ") (EName "author")))
               st))
     !! "copyright" = Some (VStr ("2020, " +:+ a))
  /\ (exists before, "2020, " +:+ a = before +:+ a)
  /\ namespace d !! "author" = Some (VStr "Aran-Fey")
  /\ namespace d !! "copyright" = Some (VStr "2020, Aran-Fey").
Proof.
  intros H.
  split; [reflexivity |].
  assert (E : exec_stmt d
                (SAssign "copyright" (EAdd (EStr "2020, ") (EName "author")))
                st
              = assign "copyright" (VStr ("2020, " +:+ a)) st).
  { unfold exec_stmt, eval, bind, ret, lookup_name, lift. rewrite H.
    reflexivity. }
  rewrite E. unfold assign. cbn [fst snd st_globals].
  split; [reflexivity |].
  split; [apply lookup_insert_eq |].
  split; [exists "2020, "; reflexivity |].
  split; vm_compute; reflexivity.
Qed.

Lemma copyright_from_author_witness :
  st_globals (State (World := unit) {["author" := VStr "Guido"]} [] tt [])
    !! "author" = Some (VStr "Guido")
  /\ st_globals
       (snd (exec_stmt VNone
               (SAssign "copyright" (EAdd (EStr "2020, ") (EName "author")))
               (State (World := unit) {["author" := VStr "Guido"]} [] tt [])))
     !! "copyright" = Some (VStr "2020, Guido").
Proof.
  split; [vm_compute; reflexivity |].
  apply (copyright_from_author VNone
           (State (World := unit) {["author" := VStr "Guido"]} [] tt [])
           "Guido").
  vm_compute. reflexivity.
Defined.

(** * Beyond the claims *)

(** ** The module body in a namespace that is not empty *)

Section ReadsOnly.

Context {World : Type}.






Variable d : value.





End ReadsOnly.

Section BodyOver.

Context {World : Type}.
Variable d : value.



End BodyOver.


(** ** [format] on text and fields *)

Lemma str_append_assoc (a b c : string) :
  (a +:+ b) +:+ c = a +:+ (b +:+ c).
Proof.
  induction a as [| x a IH]; [reflexivity |].
  change (String x ((a +:+ b) +:+ c) = String x (a +:+ (b +:+ c))).
  f_equal. exact IH.
Qed.

Lemma prepend_prepend (a b : string) (r : outcome string) :
  prepend a (prepend b r) = prepend (a +:+ b) r.
Proof. destruct r; cbn; [now rewrite str_append_assoc | reflexivity ..]. Qed.

(** Text without braces is copied. *)
Lemma py_format_text (lit rest : string) (args : list value) :
  brace_free lit = true ->
  py_format (lit +:+ rest) args = prepend lit (py_format rest args).
Proof.
  induction lit as [| c lit IH]; cbn [brace_free]; intros H.
  - change (EmptyString +:+ rest) with rest.
    destruct (py_format rest args); reflexivity.
  - change (String c lit +:+ rest) with (String c (lit +:+ rest)).
    apply andb_prop in H as [H H3]. apply andb_prop in H as [H1 H2].
    apply negb_true_iff in H1, H2.
    cbn [py_format]. rewrite H1, H2, (IH H3).
    apply prepend_prepend.
Qed.

(** An empty field takes the next argument as it is: the argument is not
    read for braces. *)
Lemma py_format_field (rest s : string) (args : list value) :
  py_format ("{}" +:+ rest) (VStr s :: args) = prepend s (py_format rest args).
Proof. reflexivity. Qed.

Lemma format_default_theme_expr (dark light : string) :
  py_format default_theme_template [VStr dark; VStr light]
  = Returned (default_theme_expr dark light).
Proof.
  change default_theme_template
    with (("window.matchMedia(" +:+ dq +:+ "(prefers-color-scheme: dark)"
           +:+ dq +:+ ").matches ? " +:+ dq)
          +:+ "{}" +:+ (dq +:+ " : " +:+ dq) +:+ "{}" +:+ dq).
  rewrite py_format_text by reflexivity. rewrite py_format_field.
  rewrite py_format_text by reflexivity. rewrite py_format_field.
  reflexivity.
Qed.

Lemma format_default_syntax_theme_expr (dark light : string) :
  py_format default_syntax_theme_template [VStr dark; VStr light]
  = Returned (default_syntax_theme_expr dark light).
Proof.
  change default_syntax_theme_template
    with (("siteThemeId === " +:+ dq +:+ "dark" +:+ dq +:+ " ? " +:+ dq)
          +:+ "{}" +:+ (dq +:+ " : " +:+ dq) +:+ "{}" +:+ dq).
  rewrite py_format_text by reflexivity. rewrite py_format_field.
  rewrite py_format_text by reflexivity. rewrite py_format_field.
  reflexivity.
Qed.

(** ** [setup] on any namespace *)


Lemma setup_eq_palette {World : Type}
    (ext_call : call -> World -> ext_result * World)
    (g : gmap string value) ws cs (su app : value) (dark light : string) w :
  g !! "sphinx_utils" = Some su ->
  g !! "DEFAULT_LIGHT_SYNTAX_THEME" = Some (VStr light) ->
  g !! "DEFAULT_DARK_SYNTAX_THEME" = Some (VStr dark) ->
  setup ext_call app (State g ws w cs) =
  match ext_call (augment_call_on su app) w with
  | (ExtRaise e, w1) =>
      (Raised e, State g ws w1 (cs ++ [augment_call_on su app]))
  | (ExtReturn a, w1) =>
      let cs' := (cs ++ [augment_call_on su app])
                 ++ [palette_call a dark light] in
      match ext_call (palette_call a dark light) w1 with
      | (ExtRaise e, w2) => (Raised e, State g ws w2 cs')
      | (ExtReturn _, w2) => (Returned VNone, State g ws w2 cs')
      end
  end.
Proof.
  intros Hsu Hl Hd. unfold setup.
  rewrite (bind_lookup _ _ _ _ _ _ _ Hsu), bind_call.
  cbn [st_world st_globals st_writes st_calls].
  change (Call su "augment" _ _) with (augment_call_on su app).
  destruct (ext_call (augment_call_on su app) w) as [[a | e] w1];
    [| reflexivity].
  rewrite (bind_lookup _ _ _ _ _ _ _ Hl), (bind_lookup _ _ _ _ _ _ _ Hd).
  rewrite (bind_lookup _ _ _ _ _ _ _ Hd), (bind_lookup _ _ _ _ _ _ _ Hl).
  rewrite format_default_theme_expr, bind_lift.
  rewrite (bind_lookup _ _ _ _ _ _ _ Hd), (bind_lookup _ _ _ _ _ _ _ Hl).
  rewrite format_default_syntax_theme_expr, bind_lift, bind_call.
  cbn [st_world st_globals st_writes st_calls].
  change (Call a "theme_switcher" _ _) with (palette_call a dark light).
  destruct (ext_call (palette_call a dark light) w1) as [[v | e] w2];
    reflexivity.
Qed.

(** X2: [setup] takes the palette names from the namespace at the moment it
    runs, and depends on the namespace through three names only.  In any state
    that binds [sphinx_utils] and binds the two palette names to strings,
    whatever these are, the augment is created on what [sphinx_utils] is bound
    to and the registration carries the light then the dark name in
    [syntax_themes] and both names, copied as they are, between the quotes of
    the two expressions. *)
Theorem setup_reads_palette_when_called {World : Type}
    (ext_call : call -> World -> ext_result * World)
    (g : gmap string value) (ws : list string) (cs : list call)
    (su app a : value) (dark light : string) (w w1 : World) :
  g !! "sphinx_utils" = Some su ->
  g !! "DEFAULT_LIGHT_SYNTAX_THEME" = Some (VStr light) ->
  g !! "DEFAULT_DARK_SYNTAX_THEME" = Some (VStr dark) ->
  ext_call (augment_call_on su app) w = (ExtReturn a, w1) ->
  st_calls (snd (setup ext_call app (State g ws w cs)))
    = cs ++ [augment_call_on su app; palette_call a dark light]
  /\ kwarg "syntax_themes" (palette_call a dark light)
     = Some (VList [ VStr light; VStr dark;
                     VStr "sphinx_utils.pygments_styles.cobalt2.Cobalt2Style" ])
  /\ kwarg "default_theme" (palette_call a dark light)
     = Some (VStr (default_theme_expr dark light))
  /\ kwarg "default_syntax_theme" (palette_call a dark light)
     = Some (VStr (default_syntax_theme_expr dark light))
  /\ palette_call a "monokai" "friendly" = switcher_call a.
Proof.
  intros Hsu Hl Hd H.
  rewrite (setup_eq_palette ext_call g ws cs su app dark light w Hsu Hl Hd), H.
  cbn zeta.
  split; [| repeat split].
  destruct (ext_call (palette_call a dark light) w1) as [[v | e] w2];
    cbn [snd st_calls]; now rewrite <- app_assoc.
Qed.

Lemma setup_reads_palette_when_called_witness :
  ({["sphinx_utils" := VObj 9;
     "DEFAULT_LIGHT_SYNTAX_THEME" := VStr "day{}";
     "DEFAULT_DARK_SYNTAX_THEME" := VStr "night"]} : gmap string value)
    !! "sphinx_utils" = Some (VObj 9)
  /\ st_calls
       (snd (setup fresh_object (VObj 0)
               (State {["sphinx_utils" := VObj 9;
                        "DEFAULT_LIGHT_SYNTAX_THEME" := VStr "day{}";
                        "DEFAULT_DARK_SYNTAX_THEME" := VStr "night"]}
                  [] 0 [])))
     = [augment_call_on (VObj 9) (VObj 0);
        palette_call (VObj 1) "night" "day{}"].
Proof.
  split; [vm_compute; reflexivity |].
  apply (setup_reads_palette_when_called fresh_object
           {["sphinx_utils" := VObj 9;
             "DEFAULT_LIGHT_SYNTAX_THEME" := VStr "day{}";
             "DEFAULT_DARK_SYNTAX_THEME" := VStr "night"]}
           [] [] (VObj 9) (VObj 0) (VObj 1) "night" "day{}" 0 1);
    vm_compute; reflexivity.
Defined.





(** X6: [setup] keeps no memory of having run.  Called a second time on the
    state a complete first call left, it creates an augment again and
    registers again, with the same arguments: two calls leave two
    registrations. *)
Theorem setup_again_registers_again {World : Type}
    (ext_call : call -> World -> ext_result * World)
    (d app a1 r1 a2 : value) (w w1 w2 w3 : World) :
  ext_call (augment_call app) w = (ExtReturn a1, w1) ->
  ext_call (switcher_call a1) w1 = (ExtReturn r1, w2) ->
  ext_call (augment_call app) w2 = (ExtReturn a2, w3) ->
  fst (setup_run ext_call d app w) = Returned VNone
  /\ st_calls (snd (setup ext_call app (snd (setup_run ext_call d app w))))
     = [augment_call app; switcher_call a1;
        augment_call app; switcher_call a2]
  /\ registrations
       (st_calls (snd (setup ext_call app (snd (setup_run ext_call d app w)))))
     = [switcher_call a1; switcher_call a2].
Proof.
  intros H1 H2 H3. rewrite setup_run_eq, H1. cbn zeta. rewrite H2.
  cbn [fst snd].
  rewrite (setup_eq ext_call (namespace d) _ _ app w2
             (namespace_sphinx_utils d) (namespace_light d)
             (namespace_dark d)), H3.
  cbn zeta.
  destruct (ext_call (switcher_call a2) w3) as [[v | e] w4];
    repeat split; reflexivity.
Qed.

Lemma setup_again_registers_again_witness :
  fresh_object (augment_call (VObj 0)) 0 = (ExtReturn (VObj 1), 1)
  /\ fresh_object (switcher_call (VObj 1)) 1 = (ExtReturn (VObj 2), 2)
  /\ fresh_object (augment_call (VObj 0)) 2 = (ExtReturn (VObj 3), 3)
  /\ registrations
       (st_calls
          (snd (setup fresh_object (VObj 0)
                  (snd (setup_run fresh_object (VStr "_themes") (VObj 0) 0)))))
     = [switcher_call (VObj 1); switcher_call (VObj 3)].
Proof.
  do 3 (split; [reflexivity |]).
  apply (setup_again_registers_again fresh_object (VStr "_themes") (VObj 0)
           (VObj 1) (VObj 2) (VObj 3) 0 1 2 3); reflexivity.
Defined.


(** ** Reading a quoted name *)


(** Inside a string literal, plain text up to the closing quote becomes the
    body of the token. *)
Lemma lex_string_body (s acc rest : string) :
  js_plain s = true ->
  JS.lex (JS.LStr acc) (s +:+ String dquote rest)
  = match JS.lex JS.LStart rest with
    | Some ts => Some (JS.TString (acc +:+ s) :: ts)
    | None => None
    end.
Proof.
  revert acc. induction s as [| c s IH]; intros acc H.
  - change (EmptyString +:+ String dquote rest) with (String dquote rest).
    cbn [JS.lex]. rewrite Ascii.eqb_refl.
    replace (acc +:+ EmptyString) with acc; [reflexivity |].
    clear. induction acc as [| x acc IH]; [reflexivity |].
    change (String x acc = String x (acc +:+ EmptyString)). now f_equal.
  - change (String c s +:+ String dquote rest)
      with (String c (s +:+ String dquote rest)).
    cbn [js_plain] in H. apply andb_prop in H as [Hc Hs].
    unfold js_plain_char in Hc.
    apply andb_prop in Hc as [Hc _]. apply andb_prop in Hc as [Hc _].
    apply andb_prop in Hc as [Hq Hb]. apply negb_true_iff in Hq, Hb.
    cbn [JS.lex]. rewrite Hq, Hb, (IH _ Hs).
    unfold JS.snoc. now rewrite str_append_assoc.
Qed.

(** Text that reads on its own, followed by an opening quote: its tokens,
    then the string literal. *)
Lemma lex_then_quote (p tail : string) :
  forall (m : JS.lex_mode) (tp : list JS.token),
    JS.lex m p = Some tp ->
    JS.lex m (p +:+ String dquote tail)
    = match JS.lex (JS.LStr EmptyString) tail with
      | Some ts => Some (tp ++ ts)
      | None => None
      end.
Proof.
  induction p as [| c p IH]; intros m tp H.
  - change (EmptyString +:+ String dquote tail) with (String dquote tail).
    cbn [JS.lex] in H.
    destruct m as [| acc | acc | n]; cbn [JS.lex JS.flush] in *.
    + injection H as <-. change (JS.start dquote)
        with (Some (JS.LStr EmptyString, @nil JS.token)).
      cbv beta iota.
      destruct (JS.lex _ tail); reflexivity.
    + injection H as <-.
      change (JS.is_ident_char dquote) with false. cbv beta iota.
      change (JS.start dquote)
        with (Some (JS.LStr EmptyString, @nil JS.token)).
      cbv beta iota.
      destruct (JS.lex _ tail); reflexivity.
    + discriminate H.
    + change (Ascii.eqb dquote "=") with false. cbv beta iota.
      rewrite H.
      change (JS.start dquote)
        with (Some (JS.LStr EmptyString, @nil JS.token)).
      cbv beta iota.
      destruct (JS.lex _ tail); reflexivity.
  - change (String c p +:+ String dquote tail)
      with (String c (p +:+ String dquote tail)).
    destruct m as [| acc | acc | n]; cbn [JS.lex] in *.
    + destruct (JS.start c) as [[m' ts] |]; [| discriminate H].
      destruct (JS.lex m' p) as [ts' |] eqn:E; [| discriminate H].
      injection H as <-. rewrite (IH _ _ E).
      destruct (JS.lex _ tail); [| reflexivity].
      now rewrite <- app_assoc.
    + destruct (JS.is_ident_char c); [now apply IH |].
      destruct (JS.start c) as [[m' ts] |]; [| discriminate H].
      destruct (JS.lex m' p) as [ts' |] eqn:E; [| discriminate H].
      injection H as <-. rewrite (IH _ _ E).
      destruct (JS.lex _ tail); [| reflexivity].
      cbn [app]. now rewrite <- app_assoc.
    + destruct (Ascii.eqb c dquote).
      * destruct (JS.lex JS.LStart p) as [ts' |] eqn:E; [| discriminate H].
        injection H as <-. rewrite (IH _ _ E).
        destruct (JS.lex _ tail); reflexivity.
      * destruct (Ascii.eqb c "\"); [discriminate H | now apply IH].
    + destruct (Ascii.eqb c "="); [now apply IH |].
      destruct (JS.flush (JS.LEq n)) as [pre |]; [| discriminate H].
      destruct (JS.start c) as [[m' ts] |]; [| discriminate H].
      destruct (JS.lex m' p) as [ts' |] eqn:E; [| discriminate H].
      injection H as <-. rewrite (IH _ _ E).
      destruct (JS.lex _ tail); [| reflexivity].
      now rewrite <- !app_assoc.
Qed.

Lemma lex_default_theme_expr (dark light : string) :
  js_plain dark = true ->
  js_plain light = true ->
  JS.lex JS.LStart (default_theme_expr dark light)
  = Some [JS.TIdent "window"; JS.TDot; JS.TIdent "matchMedia";
          JS.TLParen; JS.TString "(prefers-color-scheme: dark)";
          JS.TRParen; JS.TDot; JS.TIdent "matches"; JS.TQuestion;
          JS.TString dark; JS.TColon; JS.TString light].
Proof.
  intros Hd Hl.
  change (default_theme_expr dark light)
    with (("window.matchMedia(" +:+ dq +:+ "(prefers-color-scheme: dark)"
           +:+ dq +:+ ").matches ? ")
          +:+ String dquote
                (dark +:+ String dquote
                   (" : " +:+ String dquote
                      (light +:+ String dquote EmptyString)))).
  rewrite (lex_then_quote _ _ JS.LStart
             [JS.TIdent "window"; JS.TDot; JS.TIdent "matchMedia";
              JS.TLParen; JS.TString "(prefers-color-scheme: dark)";
              JS.TRParen; JS.TDot; JS.TIdent "matches"; JS.TQuestion])
    by (vm_compute; reflexivity).
  rewrite (lex_string_body dark _ _ Hd).
  rewrite (lex_then_quote _ _ JS.LStart [JS.TColon])
    by (vm_compute; reflexivity).
  rewrite (lex_string_body light _ _ Hl).
  reflexivity.
Qed.

Lemma lex_default_syntax_theme_expr (dark light : string) :
  js_plain dark = true ->
  js_plain light = true ->
  JS.lex JS.LStart (default_syntax_theme_expr dark light)
  = Some [JS.TIdent "siteThemeId"; JS.TStrictEq; JS.TString "dark";
          JS.TQuestion; JS.TString dark; JS.TColon; JS.TString light].
Proof.
  intros Hd Hl.
  change (default_syntax_theme_expr dark light)
    with (("siteThemeId === " +:+ dq +:+ "dark" +:+ dq +:+ " ? ")
          +:+ String dquote
                (dark +:+ String dquote
                   (" : " +:+ String dquote
                      (light +:+ String dquote EmptyString)))).
  rewrite (lex_then_quote _ _ JS.LStart
             [JS.TIdent "siteThemeId"; JS.TStrictEq; JS.TString "dark";
              JS.TQuestion])
    by (vm_compute; reflexivity).
  rewrite (lex_string_body dark _ _ Hd).
  rewrite (lex_then_quote _ _ JS.LStart [JS.TColon])
    by (vm_compute; reflexivity).
  rewrite (lex_string_body light _ _ Hl).
  reflexivity.
Qed.

Lemma run_default_theme_expr (b : JS.browser) (dark light : string) :
  js_plain dark = true ->
  js_plain light = true ->
  JS.run b (default_theme_expr dark light)
  = Some (JS.JString (if JS.prefers_dark b then dark else light)).
Proof.
  intros Hd Hl. unfold JS.run, JS.parse.
  rewrite (lex_default_theme_expr dark light Hd Hl).
  change (JS.parse_cond _ _)
    with (Some (JS.JCond
                  (JS.JMember
                     (JS.JCall (JS.JMember (JS.JVar "window") "matchMedia")
                        [JS.JStr "(prefers-color-scheme: dark)"])
                     "matches")
                  (JS.JStr dark) (JS.JStr light), @nil JS.token)).
  unfold JS.prefers_dark. cbn.
  destruct (JS.media_matches b _); reflexivity.
Qed.

Lemma run_default_syntax_theme_expr (b : JS.browser) (dark light : string) :
  js_plain dark = true ->
  js_plain light = true ->
  JS.run b (default_syntax_theme_expr dark light)
  = Some (JS.JString
            (if is_js_string "dark" (JS.siteThemeId b) then dark else light)).
Proof.
  intros Hd Hl. unfold JS.run, JS.parse.
  rewrite (lex_default_syntax_theme_expr dark light Hd Hl).
  change (JS.parse_cond _ _)
    with (Some (JS.JCond
                  (JS.JStrictEq (JS.JVar "siteThemeId") (JS.JStr "dark"))
                  (JS.JStr dark) (JS.JStr light), @nil JS.token)).
  cbn. destruct (JS.siteThemeId b) as [| c | s | props | f]; cbn;
    try reflexivity.
  destruct (String.eqb s "dark"); reflexivity.
Qed.

(** X3: the expressions stay good JavaScript for any palette names that can
    stand between double quotes as they are (no double quote, backslash or
    line break).  In any state binding the two names to such strings, the
    registered [default_theme] evaluates, in any browser, to the dark name
    when [(prefers-color-scheme: dark)] matches and to the light name
    otherwise, and [default_syntax_theme] to the dark name when [siteThemeId]
    is the string "dark" and to the light name otherwise. *)
Theorem expressions_select_plain_names {World : Type}
    (ext_call : call -> World -> ext_result * World)
    (g : gmap string value) (ws : list string) (cs : list call)
    (su app a : value) (dark light : string) (w w1 : World)
    (b : JS.browser) :
  g !! "sphinx_utils" = Some su ->
  g !! "DEFAULT_LIGHT_SYNTAX_THEME" = Some (VStr light) ->
  g !! "DEFAULT_DARK_SYNTAX_THEME" = Some (VStr dark) ->
  js_plain dark = true ->
  js_plain light = true ->
  ext_call (augment_call_on su app) w = (ExtReturn a, w1) ->
  exists c e1 e2,
    st_calls (snd (setup ext_call app (State g ws w cs)))
      = cs ++ [augment_call_on su app; c]
    /\ c_meth c = "theme_switcher"
    /\ kwarg "default_theme" c = Some (VStr e1)
    /\ kwarg "default_syntax_theme" c = Some (VStr e2)
    /\ JS.run b e1
       = Some (JS.JString (if JS.prefers_dark b then dark else light))
    /\ JS.run b e2
       = Some (JS.JString
                 (if is_js_string "dark" (JS.siteThemeId b)
                  then dark else light)).
Proof.
  intros Hsu Hl Hd Hpd Hpl H.
  exists (palette_call a dark light), (default_theme_expr dark light),
    (default_syntax_theme_expr dark light).
  split.
  { rewrite (setup_eq_palette ext_call g ws cs su app dark light w Hsu Hl Hd).
    rewrite H. cbn zeta.
    destruct (ext_call (palette_call a dark light) w1) as [[v | e] w2];
      cbn [snd st_calls]; now rewrite <- app_assoc. }
  do 3 (split; [reflexivity |]).
  split; [now apply run_default_theme_expr
         | now apply run_default_syntax_theme_expr].
Qed.

Lemma expressions_select_plain_names_witness :
  js_plain "solarized-dark" = true
  /\ js_plain "solarized-light" = true
  /\ exists c e1 e2,
       st_calls
         (snd (setup fresh_object (VObj 0)
                 (State {["sphinx_utils" := VModule "sphinx_utils";
                          "DEFAULT_LIGHT_SYNTAX_THEME"
                            := VStr "solarized-light";
                          "DEFAULT_DARK_SYNTAX_THEME"
                            := VStr "solarized-dark"]}
                    [] 0 [])))
       = [] ++ [augment_call_on (VModule "sphinx_utils") (VObj 0); c]
       /\ c_meth c = "theme_switcher"
       /\ kwarg "default_theme" c = Some (VStr e1)
       /\ kwarg "default_syntax_theme" c = Some (VStr e2)
       /\ JS.run (JS.Browser (fun _ => true) (JS.JString "light")) e1
          = Some (JS.JString "solarized-dark")
       /\ JS.run (JS.Browser (fun _ => true) (JS.JString "light")) e2
          = Some (JS.JString "solarized-light").
Proof.
  split; [reflexivity |]. split; [reflexivity |].
  apply (expressions_select_plain_names fresh_object
           {["sphinx_utils" := VModule "sphinx_utils";
             "DEFAULT_LIGHT_SYNTAX_THEME" := VStr "solarized-light";
             "DEFAULT_DARK_SYNTAX_THEME" := VStr "solarized-dark"]}
           [] [] (VModule "sphinx_utils") (VObj 0) (VObj 1)
           "solarized-dark" "solarized-light" 0 1
           (JS.Browser (fun _ => true) (JS.JString "light")));
    vm_compute; reflexivity.
Defined.

(** A palette name with a double quote in it is copied all the same, and the
    expression no longer reads. *)
Example quoted_name_breaks_expression :
  JS.parse (default_theme_expr ("mono" +:+ dq +:+ "kai") "friendly") = None.
Proof. vm_compute. reflexivity. Qed.

(** ** What depends on the external package *)

(** X8: of all the names the file binds, [html_theme_path] alone depends on
    [sphinx_utils.HTML_THEMES_DIR]: it is the one-element list of that
    value, and two runs of the module body under different values of it bind
    every other name, and bind it to the same value. *)
Theorem theme_path_alone_depends_on_package (d d' : value) :
  namespace d !! "html_theme_path" = Some (VList [d])
  /\ Forall
       (fun x : string =>
          x = "html_theme_path"
          \/ (is_Some (namespace d !! x)
              /\ namespace d !! x = namespace d' !! x))
       binding_order.
Proof.
  split; [vm_compute; reflexivity |].
  unfold binding_order.
  repeat (apply List.Forall_cons;
          [first [ left; reflexivity
                 | right; split;
                   [eexists; vm_compute; reflexivity
                   | vm_compute; reflexivity] ] |]).
  apply List.Forall_nil.
Qed.
